(** * The catalogue scraper of [coding_samples/python_sample.py]

    A shallow embedding of the scraper: Python text as lists of code
    points, the parsed markup as a tree, the helper functions as pure
    functions in an exception monad, and the drivers as state-passing code
    over the files, the databases and the log of HTTP requests.

    Left out of the state: what is printed, the pacing delays and the
    clock. The file system is flat (every directory is taken to exist), a
    CSV file is its column [DDC] of integers, a database file is its table
    [books], and storage does not fail. The remote catalogue and the
    interpreter's table of decimal digits are parameters. [main],
    [save_code_list] and [read_table] are not embedded. *)

From Stdlib Require Import ZArith NArith Lia List Ascii String.
From Stdlib Require Import DecimalString DecimalZ.
From stdpp Require Import base option list gmap.

Local Open Scope Z_scope.

(** ** Python text *)

(** A Python [str] is a sequence of Unicode code points. *)
Abbreviation str := (list N).

(** An ASCII literal of the source, as a [str]. *)
Definition lit (s : string) : str :=
  N_of_ascii <$> list_ascii_of_string s.

(** [Py_UNICODE_ISSPACE]: the code points that [str.strip], [str.split]
    and the [\s] class of [re] take for whitespace. *)
Definition isspace (c : N) : bool :=
  ((9 <=? c) && (c <=? 13) || (28 <=? c) && (c <=? 32)
   || (c =? 133) || (c =? 160) || (c =? 5760)
   || (8192 <=? c) && (c <=? 8202) || (c =? 8232) || (c =? 8233)
   || (c =? 8239) || (c =? 8287) || (c =? 12288))%N.

Fixpoint dropwhile {A} (p : A -> bool) (l : list A) : list A :=
  match l with
  | [] => []
  | x :: l' => if p x then dropwhile p l' else l
  end.

Definition lstrip (s : str) : str := dropwhile isspace s.
Definition rstrip (s : str) : str :=
  reverse (dropwhile isspace (reverse s)).

(** [s.strip()] *)
Definition strip (s : str) : str := rstrip (lstrip s).

Fixpoint startswith (p s : str) : bool :=
  match p, s with
  | [], _ => true
  | _ :: _, [] => false
  | a :: p', b :: s' => (a =? b)%N && startswith p' s'
  end.

(** The scan of [s.replace(old, new)] for a non-empty [old]: [skip] counts
    the characters of a match that are still to be passed over. *)
Fixpoint replace_scan (old new : str) (skip : nat) (s : str) : str :=
  match s with
  | [] => []
  | c :: s' =>
      match skip with
      | S k => replace_scan old new k s'
      | O =>
          if startswith old s
          then new ++ replace_scan old new (pred (length old)) s'
          else c :: replace_scan old new O s'
      end
  end.

(** [s.replace(old, new)]; with an empty [old] Python puts [new] before
    every character and at the end. *)
Definition replace (old new : str) (s : str) : str :=
  match old with
  | [] => new ++ flat_map (fun c => c :: new) s
  | _ :: _ => replace_scan old new O s
  end.

(** ** Title cleaning *)

Definition newline : str := [10%N].
Definition tab : str := [9%N].

Definition clean_title (title : str) : str :=
  let title := replace newline [] title in
  let title := replace tab [] title in
  let title := replace (lit "/") [] title in
  let title := strip title in
  title.

(** ** Exceptions *)

Inductive exn :=
| AttributeError | IndexError | TypeError | ValueError
| ZeroDivisionError | OverflowError | FileNotFoundError
| TransportError.

#[global] Instance exn_eq_dec : EqDecision exn.
Proof. solve_decision. Defined.

(** A call either raises or returns. *)
Definition res (A : Type) : Type := (exn + A)%type.

Definition raise {A} (e : exn) : res A := inl e.

#[global] Instance res_ret : MRet res := fun A x => inr x.
#[global] Instance res_bind : MBind res := fun A B f m =>
  match m with
  | inl e => inl e
  | inr x => f x
  end.

(** [try: body except (excs): handler] *)
Definition try_except {A} (body : res A) (excs : list exn) (handler : res A)
  : res A :=
  match body with
  | inl e => if bool_decide (e ∈ excs) then handler else inl e
  | inr x => inr x
  end.

(** ** The parsed markup

    What [BeautifulSoup(..., 'html.parser')] hands to the scraper: a tree
    of tags whose contents are tags and strings. Plain text is a
    [NavigableString]; the other string containers (comments and the
    like) are strings too, but [.text] and [get_text] pass over them. *)

Inductive strkind := NavigableString | Comment.

Inductive child (T : Type) :=
| CStr (k : strkind) (s : str)
| CTag (t : T).
Arguments CStr {T} k s.
Arguments CTag {T} t.

#[warnings="-register-all"]
Inductive tag :=
| Tag (name : str) (attrs : gmap str str) (contents : list (child tag)).

Definition name (t : tag) : str := let 'Tag n _ _ := t in n.
Definition attrs (t : tag) : gmap str str := let 'Tag _ a _ := t in a.
Definition contents (t : tag) : list (child tag) := let 'Tag _ _ c := t in c.

(** [t.descendants]: everything below [t], in document order. *)
Fixpoint descendants (t : tag) : list (child tag) :=
  let 'Tag _ _ cs := t in
  (fix below (cs : list (child tag)) : list (child tag) :=
     match cs with
     | [] => []
     | c :: cs' =>
         (c :: match c with
               | CTag t' => descendants t'
               | CStr _ _ => []
               end) ++ below cs'
     end) cs.

(** The scan behind [words]: [cur] is the word being read. *)
Fixpoint words_scan (cur : str) (s : str) : list str :=
  match s with
  | [] => match cur with [] => [] | _ :: _ => [cur] end
  | c :: s' =>
      if isspace c
      then match cur with
           | [] => words_scan [] s'
           | _ :: _ => cur :: words_scan [] s'
           end
      else words_scan (cur ++ [c]) s'
  end.

(** The values of a multi-valued attribute: the maximal runs of
    non-whitespace of the attribute's text. *)
Definition words (s : str) : list str := words_scan [] s.

Definition str_eqb (a b : str) : bool := bool_decide (a = b).

(** [sep.join(l)] *)
Fixpoint join (sep : str) (l : list str) : str :=
  match l with
  | [] => []
  | [x] => x
  | x :: l' => x ++ sep ++ join sep l'
  end.

(** A [class_] filter matches a tag when it is one of the tag's classes,
    or the whole class attribute taken as one string. *)
Definition matches_class (class_ : str) (t : tag) : bool :=
  match attrs t !! lit "class" with
  | None => false
  | Some v =>
      let cs := words v in
      existsb (str_eqb class_) cs || str_eqb class_ (join (lit " ") cs)
  end.

Definition matches (selector : str) (class_ : option str) (t : tag) : bool :=
  str_eqb selector (name t)
  && match class_ with
     | None => true
     | Some c => matches_class c t
     end.

Definition tags_of (cs : list (child tag)) : list tag :=
  omap (fun c => match c with CTag t => Some t | CStr _ _ => None end) cs.

(** [soup.find_all(selector, class_=...)] *)
Definition find_all (soup : tag) (selector : str) (class_ : option str)
  : list tag :=
  List.filter (matches selector class_) (tags_of (descendants soup)).

(** [soup.find(selector, class_=...)]: the first match, or [None]. *)
Definition find (soup : tag) (selector : str) (class_ : option str)
  : option tag :=
  head (find_all soup selector class_).

(** [temp.find(string=True, recursive=False)]: the first direct child that
    is a string of any kind. *)
Definition find_string (t : tag) : option str :=
  head (omap (fun c => match c with CStr _ s => Some s | CTag _ => None end)
          (contents t)).

Definition strings (t : tag) : list str :=
  omap (fun c => match c with
                 | CStr NavigableString s => Some s
                 | _ => None
                 end) (descendants t).

(** [t.text] *)
Definition text (t : tag) : str := concat (strings t).

(** [t.get_text(strip=True)]: every string stripped, the empty ones left
    out. *)
Definition get_text_strip (t : tag) : str :=
  concat (List.filter (fun s => negb (bool_decide (s = [])))
            (strip <$> strings t)).

(** Attribute access on the result of [find]: [None] has no attributes. *)
Definition attr {A} (o : option tag) (f : tag -> A) : res A :=
  match o with
  | None => raise AttributeError
  | Some t => mret (f t)
  end.

(** The first occurrence of [sep] in [s]: the text before and after it. *)
Fixpoint partition (sep : str) (s : str) : option (str * str) :=
  match s with
  | [] => None
  | c :: s' =>
      if startswith sep s then Some ([], drop (length sep) s)
      else (fun '(a, b) => (c :: a, b)) <$> partition sep s'
  end.

(** [s.split(sep, 1)] *)
Definition split1 (sep : str) (s : str) : res (list str) :=
  match sep with
  | [] => raise ValueError
  | _ :: _ =>
      match partition sep s with
      | None => mret [s]
      | Some (a, b) => mret [a; b]
      end
  end.

(** [l[i]] *)
Definition index {A} (l : list A) (i : nat) : res A :=
  match l !! i with
  | None => raise IndexError
  | Some x => mret x
  end.

(** [sub in s] *)
Definition contains (sub : str) (s : str) : bool :=
  match sub with
  | [] => true
  | _ :: _ => bool_decide (is_Some (partition sub s))
  end.

(** ** Field extractors *)

Definition extract_text (soup : tag) (selector : str) : res (option str) :=
  try_except
    (text ← attr (find soup selector None) text;
     mret (Some text))
    [AttributeError]
    (mret None).

Definition extract_text_class (soup : tag) (selector : str) (type : str)
  : res (option str) :=
  try_except
    (text ← attr (find soup selector (Some type)) text;
     mret (Some text))
    [AttributeError]
    (mret None).

(** [clean_title] applied to what may be [None]: [None] has no
    [replace]. *)
Definition clean_title_of (o : option str) : res str :=
  match o with
  | None => raise AttributeError
  | Some s => mret (clean_title s)
  end.

Definition extract_title (soup : tag) : res (option str) :=
  try_except
    (let temp := find soup (lit "a") (Some (lit "title")) in
     s ← attr temp find_string;
     title ← clean_title_of s;
     mret (Some title))
    [AttributeError]
    (mret None).

Definition extract_book_type (soup : tag) : res (option str) :=
  try_except
    (let temp := find soup (lit "span") (Some (lit "results_material_type")) in
     t ← attr temp get_text_strip;
     let material_type := replace (lit "Material type:") [] t in
     mret (Some material_type))
    [AttributeError; IndexError]
    (mret None).

Definition extract_book_language (soup : tag) : res (option str) :=
  try_except
    (let temp :=
       find soup (lit "span") (Some (lit "results_summary languages")) in
     t ← attr temp get_text_strip;
     parts ← split1 (lit ":") t;
     part ← index parts 1;
     let language := strip part in
     mret (Some language))
    [AttributeError; IndexError]
    (mret None).

Definition extract_book_form (soup : tag) : res (option str) :=
  try_except
    (let temp :=
       find soup (lit "span") (Some (lit "results_contents_literary")) in
     t ← attr temp get_text_strip;
     if contains (lit ":") t
     then
       t ← attr temp get_text_strip;
       parts ← split1 (lit ":") t;
       part ← index parts 1;
       let form := strip part in
       mret (Some form)
     else
       t ← attr temp get_text_strip;
       mret (Some (strip t)))
    [AttributeError; IndexError]
    (mret None).

Definition extract_call_number (book : tag) : res (option str) :=
  try_except
    (t ← attr (find book (lit "span") (Some (lit "CallNumber"))) text;
     let call_number := strip t in
     mret (Some call_number))
    [AttributeError]
    (mret None).

(** [a.get('href')] is [None] when the attribute is missing. *)
Definition extract_link (book : tag) : res (option str) :=
  try_except
    (link ← attr (find book (lit "a") None) (fun a => attrs a !! lit "href");
     mret link)
    [AttributeError]
    (mret None).

(** ** Records *)

(** The tuple that [parse_book] yields, which is also a row of the table
    [books]; [None] is stored as NULL. *)
Record row := Row {
  r_title : option str;
  r_call_number : option str;
  r_author : option str;
  r_booktype : option str;
  r_form : option str;
  r_language : option str;
  r_year : option str;
  r_link : option str;
}.

(** [parse_book] is a generator: running it gives the rows it yields, or
    the exception that stops it. *)
Definition parse_book (book : tag) : res (list row) :=
  title ← extract_title book;
  call_number ← extract_call_number book;
  author ← extract_text book (lit "p");
  booktype ← extract_book_type book;
  form ← extract_book_form book;
  language ← extract_book_language book;
  year ← extract_text_class book (lit "span") (lit "publisher_date");
  link ← extract_link book;
  mret [Row title call_number author booktype form language year link].

(** ** True division and ceiling

    [num / 100] is Python's true division of integers: the quotient
    rounded to the nearest binary64 number, ties to even. A finite
    binary64 number is kept as [mantissa * 2 ^ exponent]. *)

Record float := Float { mantissa : Z; exponent : Z }.

(** The integer nearest to [num / den], ties to even, for [0 < den]. *)
Definition round_half_even (num den : Z) : Z :=
  let q := num / den in
  let r := num mod den in
  if 2 * r <? den then q
  else if den <? 2 * r then q + 1
  else if Z.even q then q else q + 1.

(** [floor (log2 (a / b))] for positive [a] and [b]. *)
Definition quotient_log2 (a b : Z) : Z :=
  let d := Z.log2 a - Z.log2 b in
  let reaches :=
    if 0 <=? d then b * 2 ^ d <=? a else b <=? a * 2 ^ (- d) in
  if reaches then d else d - 1.

(** [a / b] on integers. The mantissa has 53 bits, fewer in the
    subnormal range; a quotient of [2 ^ 1024] or more overflows. *)
Definition int_true_divide (a b : Z) : res float :=
  if b =? 0 then raise ZeroDivisionError
  else if a =? 0 then mret (Float 0 0)
  else
    let e := Z.max (quotient_log2 (Z.abs a) (Z.abs b) - 52) (-1074) in
    let m :=
      if 0 <=? e then round_half_even (Z.abs a) (Z.abs b * 2 ^ e)
      else round_half_even (Z.abs a * 2 ^ (- e)) (Z.abs b) in
    if 2 ^ 1024 <=? m * 2 ^ e then raise OverflowError
    else mret (Float (Z.sgn a * Z.sgn b * m) e).

(** [math.ceil(x)] *)
Definition ceil (x : float) : Z :=
  if 0 <=? exponent x then mantissa x * 2 ^ exponent x
  else - ((- mantissa x) / 2 ^ (- exponent x)).

Definition num_of_pages (num : option Z) : res (option Z) :=
  match num with
  | None => mret None
  | Some num =>
      x ← int_true_divide num 100;
      mret (Some (ceil x))
  end.

(** ** Decimal text of an integer, as an f-string prints it *)

Definition format_int (z : Z) : str := lit (NilZero.string_of_int (Z.to_int z)).

(** ** The store of records *)

Inductive column :=
| title | call_number | author | booktype | form | language | year | link.

#[global] Instance column_eq_dec : EqDecision column.
Proof. solve_decision. Defined.

Definition field (c : column) (r : row) : option str :=
  match c with
  | title => r_title r
  | call_number => r_call_number r
  | author => r_author r
  | booktype => r_booktype r
  | form => r_form r
  | language => r_language r
  | year => r_year r
  | link => r_link r
  end.

(** The table [books] of one database file: the UNIQUE constraints it was
    created with, and its rows in insertion order. *)
Record table := Table {
  unique : list (list column);
  rows : list row;
}.

(** Two rows collide on a UNIQUE constraint when they agree on each of
    its columns; a NULL agrees with nothing. *)
Definition collide (key : list column) (r r' : row) : bool :=
  forallb (fun c =>
             match field c r, field c r' with
             | Some a, Some b => str_eqb a b
             | _, _ => false
             end) key.

Definition conflicts (t : table) (r : row) : bool :=
  existsb (fun key => existsb (collide key r) (rows t)) (unique t).

(** [INSERT OR IGNORE INTO books VALUES (...)]: a row that violates a
    constraint of the table is skipped. *)
Definition insert_or_ignore (t : table) (r : row) : table :=
  if conflicts t r then t else Table (unique t) (rows t ++ [r]).

(** [CREATE TABLE IF NOT EXISTS books (title text, ..., link text)]: the
    statement of the source declares the eight columns and no
    constraint; a table that exists is left as it is. *)
Definition create_table_if_not_exists (o : option table) : table :=
  match o with
  | Some t => t
  | None => Table [] []
  end.

(** ** The world the scraper runs in *)

Record world := World {
  (** the CSV files, each by its column [DDC] *)
  files : gmap str (list Z);
  (** the SQLite files, each by its table [books] *)
  databases : gmap str table;
  (** the arguments of the calls of [httpx.get] so far, oldest first *)
  get_calls : list (option str);
}.

(** A statement: it changes the world and returns or raises. *)
Definition M (A : Type) : Type := world -> res A * world.

#[global] Instance M_ret : MRet M := fun A x w => (inr x, w).
#[global] Instance M_bind : MBind M := fun A B f m w =>
  match m w with
  | (inl e, w') => (inl e, w')
  | (inr x, w') => f x w'
  end.

Definition lift {A} (r : res A) : M A := fun w => (r, w).

Definition try_except_M {A} (body : M A) (excs : list exn) (handler : M A)
  : M A := fun w =>
  match body w with
  | (inl e, w') =>
      if bool_decide (e ∈ excs) then handler w' else (inl e, w')
  | (inr x, w') => (inr x, w')
  end.

(** [for x in xs: body x] *)
Fixpoint for_each {A} (xs : list A) (body : A -> M unit) : M unit :=
  match xs with
  | [] => mret tt
  | x :: xs' => _ ← body x; for_each xs' body
  end.

(** [range(a, b)] *)
Definition range (a b : Z) : list Z :=
  (fun i => a + Z.of_nat i) <$> seq 0 (Z.to_nat (b - a)).

(** [pd.read_csv(path)['DDC'].tolist()] *)
Definition read_csv (file_path : str) : M (list Z) := fun w =>
  match files w !! file_path with
  | None => (raise FileNotFoundError, w)
  | Some l => (inr l, w)
  end.

(** [pd.DataFrame({"DDC": l}).to_csv(path, index=False)] *)
Definition to_csv (file_path : str) (l : list Z) : M unit := fun w =>
  (inr tt, World (<[file_path := l]> (files w)) (databases w) (get_calls w)).

Definition save_to_database (database_path : str)
    (page_results : res (list row)) : M unit := fun w =>
  let t := create_table_if_not_exists (databases w !! database_path) in
  match page_results with
  | inl e =>
      (inl e, World (files w) (<[database_path := t]> (databases w))
                (get_calls w))
  | inr results =>
      let t' := foldl insert_or_ignore t results in
      (inr tt, World (files w) (<[database_path := t']> (databases w))
                 (get_calls w))
  end.

Definition save_code_scraped (language path : str) (code : Z) : M unit :=
  let file_path :=
    path ++ lit "/0_subject_list/scraper_progess_tracker/ddc_codes_scraped_"
         ++ language ++ lit ".csv" in
  let df := [code] in
  updated_df ←
    try_except_M
      (existing_df ← read_csv file_path;
       mret (existing_df ++ df))
      [FileNotFoundError]
      (mret df);
  to_csv file_path updated_df.

Definition progress_update_codes (path language : str) : M (list Z) :=
  list_of_codes ←
    read_csv (path ++ lit "/0_subject_list/tech_ddc_codes_list.csv");
  codes_scraped ←
    try_except_M
      (read_csv
         (path
          ++ lit "/0_subject_list/scraper_progess_tracker/ddc_codes_scraped_"
          ++ language ++ lit ".csv"))
      [FileNotFoundError]
      (mret []);
  let codes_to_scrape :=
    List.filter (fun code => bool_decide (code ∉ codes_scraped))
      list_of_codes in
  mret codes_to_scrape.

Definition build_url (language : str) (num : Z) (DDC : Z) : option str :=
  lan ←
    (if str_eqb language (lit "Hindi") then Some (lit "hin")
     else if str_eqb language (lit "Bengali") then Some (lit "ben")
     else if str_eqb language (lit "Tamil") then Some (lit "tam")
     else if str_eqb language (lit "Marathi") then Some (lit "mar")
     else if str_eqb language (lit "Urdu") then Some (lit "urd")
     else if str_eqb language (lit "Kannada") then Some (lit "kan")
     else if str_eqb language (lit "English") then Some (lit "eng")
     else None);
  let url :=
    lit "https://nationallibraryopac.nvli.in/cgi-bin/koha/opac-search.pl?idx=callnum&q="
    ++ format_int DDC
    ++ lit "&limit=mc-itype%2Cphr%3ABKS&limit=ln%2Crtrn%3A" ++ lan
    ++ lit "&limit=fic%3A0&offset=" ++ format_int num
    ++ lit "&sort_by=call_number_dsc&count=100" in
  Some url.

Section Scraper.

(** [Py_UNICODE_TODECIMAL], the interpreter's table of decimal digits: the
    value of a code point that is a decimal digit of some script. The
    class [\d] of [re] and the conversion [int] both read it. *)
Variable todecimal : N -> option N.

(** The remote catalogue, as [httpx.get] followed by the HTML parser sees
    it: what the [k]-th call returns for a URL, a parsed document or the
    exception of the transport. *)
Variable remote : nat -> str -> res tag.

Definition isdecimal (c : N) : bool :=
  match todecimal c with
  | Some _ => true
  | None => false
  end.

(** The scan of [re.findall(r'\d+', s)]: [cur] is the match being
    extended; a match ends at the first character that is no digit, or at
    the end of the text. *)
Fixpoint findall_scan (cur : str) (s : str) : list str :=
  match s with
  | [] => match cur with [] => [] | _ :: _ => [cur] end
  | c :: s' =>
      if isdecimal c then findall_scan (cur ++ [c]) s'
      else match cur with
           | [] => findall_scan [] s'
           | _ :: _ => cur :: findall_scan [] s'
           end
  end.

Definition findall_digits (s : str) : list str := findall_scan [] s.

(** The digits of an [int] literal: decimal digits, single underscores
    allowed between two of them. [after_digit] tells whether the
    character before was a digit. *)
Fixpoint digits_value (acc : Z) (after_digit : bool) (s : str) : option Z :=
  match s with
  | [] => if after_digit then Some acc else None
  | c :: s' =>
      match todecimal c with
      | Some d => digits_value (acc * 10 + Z.of_N d) true s'
      | None =>
          if (c =? 95)%N && after_digit then digits_value acc false s'
          else None
      end
  end.

(** [int(s)]: blanks around, an optional sign, the digits. The
    interpreter's configurable bound on the length of the text is taken
    to be off. *)
Definition int (s : str) : res Z :=
  let s := strip s in
  let '(sign, body) :=
    match s with
    | 43%N :: body => (1, body)
    | 45%N :: body => (-1, body)
    | _ => (1, s)
    end in
  match digits_value 0 false body with
  | Some v => mret (sign * v)
  | None => raise ValueError
  end.

Definition extract_number (s : str) : res (option Z) :=
  let number := findall_digits s in
  match number with
  | [] => mret None
  | _ :: _ =>
      n ← int (join [] number);
      mret (Some n)
  end.

(** [httpx.get(url, ...)] followed by [BeautifulSoup(resp.content,
    'html.parser')]. The call is recorded; a URL that is no text is
    refused with [TypeError] before anything is sent. *)
Definition httpx_get (url : option str) : M tag := fun w =>
  let w' := World (files w) (databases w) (get_calls w ++ [url]) in
  match url with
  | None => (raise TypeError, w')
  | Some u => (remote (length (get_calls w)) u, w')
  end.

Definition num_of_results (url : option str) : M (option Z) :=
  soup ← httpx_get url;
  h1 ← lift (attr (find soup (lit "h1") None) text);
  let num_results := strip h1 in
  lift (extract_number num_results).

Definition parse_page (url : option str) (path : str) : M unit :=
  soup ← httpx_get url;
  let table := find soup (lit "div") (Some (lit "searchresults")) in
  try_except_M
    (books ← lift (attr table (fun t => find_all t (lit "tr") None));
     if (length books =? 0)%nat then mret tt
     else
       for_each books (fun book =>
         let results := parse_book book in
         save_to_database path results))
    [AttributeError]
    (mret tt).

Definition parse_code (language path : str) (code : Z) : M unit :=
  let database_path :=
    path ++ lit "/1_scraped_data/parsed_data_" ++ language ++ lit ".db" in
  let url := build_url language 0 code in
  num_res ← num_of_results url;
  num_pages ← lift (num_of_pages num_res);
  match num_res with
  | None => mret tt
  | Some _ =>
      match num_pages with
      | None => lift (raise TypeError)
      | Some num_pages =>
          for_each (range 0 num_pages) (fun i =>
            let url := build_url language (i * 100) code in
            parse_page url database_path)
      end
  end.

Definition parse_language (language path : str) (list_of_codes : list Z)
  : M unit :=
  let codes := list_of_codes in
  for_each codes (fun code =>
    _ ← parse_code language path code;
    save_code_scraped language path code).

Definition scrape_language (language path : str) : M unit :=
  list_of_codes ← progress_update_codes path language;
  if (0 <? length list_of_codes)%nat
  then parse_language language path list_of_codes
  else mret tt.

End Scraper.

(** ** Reading a store back *)


(** * The vocabulary of the properties *)

(** The characters that [clean_title] deletes: newline, tab, slash. *)
Definition deleted (c : N) : bool := ((c =? 10) || (c =? 9) || (c =? 47))%N.

Section DigitRuns.

Variable todecimal : N -> option N.



End DigitRuns.

(** A world in which nothing was written or fetched yet. *)
Definition fresh : world := World ∅ ∅ [].

(** The file of the subject-code universe under [path]. *)
Definition universe_file (path : str) : str :=
  path ++ lit "/0_subject_list/tech_ddc_codes_list.csv".

(** The file of the ledger of [language] under [path]. *)
Definition ledger_file (path language : str) : str :=
  path ++ lit "/0_subject_list/scraper_progess_tracker/ddc_codes_scraped_"
       ++ language ++ lit ".csv".

(** The ledger of a language as the scraper reads it: empty when the file
    is missing. *)
Definition ledger (w : world) (path language : str) : list Z :=
  default [] (files w !! ledger_file path language).

(** The closed table of [build_url]: the facet names and their codes. *)
Definition language_code (language : str) : option str :=
  if str_eqb language (lit "Hindi") then Some (lit "hin")
  else if str_eqb language (lit "Bengali") then Some (lit "ben")
  else if str_eqb language (lit "Tamil") then Some (lit "tam")
  else if str_eqb language (lit "Marathi") then Some (lit "mar")
  else if str_eqb language (lit "Urdu") then Some (lit "urd")
  else if str_eqb language (lit "Kannada") then Some (lit "kan")
  else if str_eqb language (lit "English") then Some (lit "eng")
  else None.

(** The facet names of the table. *)
Definition supported : list str :=
  [lit "Hindi"; lit "Bengali"; lit "Tamil"; lit "Marathi"; lit "Urdu";
   lit "Kannada"; lit "English"].

(** A row of the results table in which the paragraph with the author is
    missing. *)
Definition row_without_author : tag :=
  Tag (lit "tr") ∅
    [CTag (Tag (lit "td") ∅
       [CTag (Tag (lit "a")
                (<[lit "class" := lit "title"]>
                   {[lit "href" := lit "/cgi-bin/koha/opac-detail.pl?biblionumber=7"]})
                [CStr NavigableString (lit " Yantra vigyan / ");
                 CTag (Tag (lit "span") ∅
                         [CStr NavigableString (lit "subtitle")])]);
        CStr NavigableString (lit " ");
        CTag (Tag (lit "span") {[lit "class" := lit "results_summary type"]}
                [CTag (Tag (lit "span")
                         {[lit "class" := lit "results_material_type"]}
                         [CTag (Tag (lit "span") {[lit "class" := lit "label"]}
                                  [CStr NavigableString (lit "Material type: ")]);
                          CStr NavigableString (lit " Text")]);
                 CTag (Tag (lit "span")
                         {[lit "class" := lit "results_contents_literary"]}
                         [CTag (Tag (lit "span") {[lit "class" := lit "label"]}
                                  [CStr NavigableString (lit "Literary form: ")]);
                          CStr NavigableString (lit " Not fiction ")])]);
        CTag (Tag (lit "span")
                {[lit "class" := lit "results_summary languages"]}
                [CTag (Tag (lit "span") {[lit "class" := lit "label"]}
                         [CStr NavigableString (lit "Language: ")]);
                 CStr NavigableString (lit " Hindi ")]);
        CTag (Tag (lit "span") {[lit "class" := lit "publisher_date"]}
                [CStr NavigableString (lit "2001")]);
        CTag (Tag (lit "span") {[lit "class" := lit "CallNumber"]}
                [CStr NavigableString (lit " H 621.8 Y1 ")])])].

(** The ASCII part of the table of decimal digits. *)
Definition ascii_todecimal (c : N) : option N :=
  if ((48 <=? c) && (c <=? 57))%N then Some (c - 48)%N else None.

(** A campaign under [../Data/] with the universe 600..603 and the codes
    600 and 601 in the ledger of Hindi. *)
Definition resumed : world :=
  World (<[ledger_file (lit "../Data/") (lit "Hindi") := [600; 601]]>
           {[universe_file (lit "../Data/") := [600; 601; 602; 603]]})
    ∅ [].

(** A results page: the heading with the count, and one row. *)
Definition results_page : tag :=
  Tag (lit "[document]") ∅
    [CTag (Tag (lit "h1") ∅
             [CStr NavigableString
                (lit " Your search returned 250 results. ")]);
     CTag (Tag (lit "div") {[lit "class" := lit "searchresults"]}
             [CTag (Tag (lit "table") ∅ [CTag row_without_author])])].

(** A catalogue that answers every request with [results_page]. *)
Definition catalogue (k : nat) (url : str) : res tag := inr results_page.

(** The database file of a language under [path]. *)
Definition database_file (path language : str) : str :=
  path ++ lit "/1_scraped_data/parsed_data_" ++ language ++ lit ".db".





(** A statement keeps a relation between the world before and the world
    after it, whatever its outcome. *)
Definition keeps {A} (R : world -> world -> Prop) (m : M A) : Prop :=
  forall w, R w (m w).2.

(** The worlds that differ at most in one database and in the requests
    made. *)
Definition only_database (database_path : str) (w w' : world) : Prop :=
  files w' = files w
  /\ forall p, p <> database_path -> databases w' !! p = databases w !! p.

(** A text is trimmed when it neither starts nor ends with whitespace. *)
Definition trimmed (s : str) : Prop := strip s = s.

(** A page whose heading holds no digit, and a page without heading. *)
Definition no_results_page : tag :=
  Tag (lit "[document]") ∅
    [CTag (Tag (lit "h1") ∅
             [CStr NavigableString (lit " No results found! ")])].

Definition bare_page : tag :=
  Tag (lit "[document]") ∅ [CStr NavigableString (lit "Service unavailable")].

(** A campaign under [../Data/] in which every code of the universe is
    in the ledger of Hindi. *)
Definition finished : world :=
  World (<[ledger_file (lit "../Data/") (lit "Hindi") := [601; 600]]>
           {[universe_file (lit "../Data/") := [600; 601]]})
    ∅ [].


(** Catalogues that answer every request with [no_results_page], and
    with [bare_page]. *)
Definition empty_catalogue (k : nat) (url : str) : res tag :=
  inr no_results_page.

Definition bare_catalogue (k : nat) (url : str) : res tag := inr bare_page.

(** * Properties *)

(** ** Text *)

Lemma dropwhile_app_takewhile {A} (p : A -> bool) (l : list A) :
  exists pre, l = pre ++ dropwhile p l /\ Forall (fun x => p x = true) pre.
Proof.
  induction l as [|x l [pre [E F]]]; simpl.
  - exists []. split; [reflexivity | constructor].
  - destruct (p x) eqn:Hx.
    + exists (x :: pre). split; [simpl; congruence | constructor; assumption].
    + exists []. split; [reflexivity | constructor].
Qed.

Lemma dropwhile_head {A} (p : A -> bool) (l : list A) (x : A) :
  head (dropwhile p l) = Some x -> p x = false.
Proof.
  induction l as [|y l IH]; simpl; [discriminate|].
  destruct (p y) eqn:Hy; [exact IH|].
  simpl. intros [= <-]. exact Hy.
Qed.

Lemma dropwhile_fixed {A} (p : A -> bool) (l : list A) :
  match head l with Some x => p x = false | None => True end ->
  dropwhile p l = l.
Proof. destruct l as [|x l]; simpl; [reflexivity|]. intros ->. reflexivity. Qed.

Lemma dropwhile_idem {A} (p : A -> bool) (l : list A) :
  dropwhile p (dropwhile p l) = dropwhile p l.
Proof.
  apply dropwhile_fixed. destruct (head (dropwhile p l)) eqn:E; [|exact I].
  eapply dropwhile_head, E.
Qed.

Lemma rstrip_prefix (s : str) :
  exists post, s = rstrip s ++ post /\ Forall (fun c => isspace c = true) post.
Proof.
  unfold rstrip.
  destruct (dropwhile_app_takewhile isspace (reverse s)) as [pre [E F]].
  exists (reverse pre). split.
  - rewrite <- reverse_app, <- E, reverse_involutive. reflexivity.
  - apply Forall_reverse. exact F.
Qed.

Lemma rstrip_last (s : str) (c : N) :
  last (rstrip s) = Some c -> isspace c = false.
Proof.
  unfold rstrip. rewrite last_reverse. apply dropwhile_head.
Qed.

Lemma rstrip_idem (s : str) : rstrip (rstrip s) = rstrip s.
Proof. unfold rstrip. rewrite reverse_involutive, dropwhile_idem. reflexivity. Qed.

(** What [rstrip] keeps starts as its argument does. *)
Lemma rstrip_head (s : str) (c : N) :
  head (rstrip s) = Some c -> head s = Some c.
Proof.
  destruct (rstrip_prefix s) as [post [E _]].
  intros H. rewrite E. destruct (rstrip s); [discriminate | exact H].
Qed.

Lemma strip_split (s : str) :
  exists pre post,
    s = pre ++ strip s ++ post
    /\ Forall (fun c => isspace c = true) pre
    /\ Forall (fun c => isspace c = true) post.
Proof.
  unfold strip, lstrip.
  destruct (dropwhile_app_takewhile isspace s) as [pre [E F]].
  destruct (rstrip_prefix (dropwhile isspace s)) as [post [E' F']].
  exists pre, post. split; [|split; assumption].
  rewrite <- E'. exact E.
Qed.

Lemma strip_head (s : str) (c : N) :
  head (strip s) = Some c -> isspace c = false.
Proof.
  unfold strip, lstrip. intros H.
  apply rstrip_head in H. eapply dropwhile_head, H.
Qed.

Lemma strip_last (s : str) (c : N) :
  last (strip s) = Some c -> isspace c = false.
Proof. apply rstrip_last. Qed.

Lemma strip_idem (s : str) : strip (strip s) = strip s.
Proof.
  unfold strip at 1. unfold lstrip.
  rewrite dropwhile_fixed.
  - unfold strip. apply rstrip_idem.
  - destruct (head (strip s)) eqn:E; [|exact I]. eapply strip_head, E.
Qed.

Lemma strip_Forall (P : N -> Prop) (s : str) : Forall P s -> Forall P (strip s).
Proof.
  destruct (strip_split s) as [pre [post [E _]]].
  intros H. rewrite E in H.
  apply Forall_app in H as [_ H]. apply Forall_app in H as [H _]. exact H.
Qed.

(** Replacing a one-character text by nothing deletes that character. *)
Lemma replace_one_char (c : N) (s : str) :
  replace [c] [] s = List.filter (fun x => negb (c =? x)%N) s.
Proof.
  unfold replace. induction s as [|x s IH]; [reflexivity|].
  cbn [replace_scan startswith List.filter length pred].
  destruct (c =? x)%N; cbn [andb negb app]; rewrite IH; reflexivity.
Qed.

Lemma filter_filter_bool {A} (p q : A -> bool) (l : list A) :
  List.filter p (List.filter q l) = List.filter (fun x => q x && p x) l.
Proof.
  induction l as [|x l IH]; [reflexivity|]. simpl.
  destruct (q x); simpl; [destruct (p x)|]; rewrite IH; reflexivity.
Qed.

Lemma filter_Forall_id {A} (p : A -> bool) (l : list A) :
  Forall (fun x => p x = true) l -> List.filter p l = l.
Proof.
  induction 1 as [|x l Hx _ IH]; [reflexivity|]. simpl. rewrite Hx, IH.
  reflexivity.
Qed.

Lemma Forall_filter_bool {A} (p : A -> bool) (l : list A) :
  Forall (fun x => p x = true) (List.filter p l).
Proof.
  induction l as [|x l IH]; simpl; [constructor|].
  destruct (p x) eqn:E; [constructor|]; assumption.
Qed.

(** ** Title cleaning *)

Lemma clean_title_filter (title : str) :
  clean_title title = strip (List.filter (fun c => negb (deleted c)) title).
Proof.
  unfold clean_title, newline, tab. change (lit "/") with [47%N].
  rewrite !replace_one_char, !filter_filter_bool.
  f_equal. apply List.filter_ext. intros c. unfold deleted.
  rewrite !(N.eqb_sym c). destruct (10 =? c)%N, (9 =? c)%N, (47 =? c)%N;
    reflexivity.
Qed.

Lemma clean_title_kept (title : str) :
  Forall (fun c => negb (deleted c) = true) (clean_title title).
Proof.
  rewrite clean_title_filter. apply strip_Forall, Forall_filter_bool.
Qed.

(** C5. Title cleaning deletes every newline, tab and slash and then trims
    the whitespace at both ends: what is left of the title after the
    deletion is the result between two runs of whitespace, the result
    neither starts nor ends with whitespace, and it holds no newline, tab or
    slash. The title ["  Foo\nBar\t/Baz  "] is cleaned to ["FooBarBaz"]. *)
Theorem clean_title_removes_then_trims (title : str) :
  (exists pre post,
      List.filter (fun c => negb (deleted c)) title
      = pre ++ clean_title title ++ post
      /\ Forall (fun c => isspace c = true) pre
      /\ Forall (fun c => isspace c = true) post)
  /\ match head (clean_title title) with
     | Some c => isspace c = false
     | None => True
     end
  /\ match last (clean_title title) with
     | Some c => isspace c = false
     | None => True
     end
  /\ Forall (fun c => c <> 10%N /\ c <> 9%N /\ c <> 47%N) (clean_title title)
  /\ clean_title
       (lit "  Foo" ++ newline ++ lit "Bar" ++ tab ++ lit "/Baz  ")
     = lit "FooBarBaz".
Proof.
  split; [|split; [|split; [|split]]].
  - rewrite clean_title_filter. apply strip_split.
  - rewrite clean_title_filter.
    destruct (head (strip _)) eqn:E; [|exact I]. eapply strip_head, E.
  - rewrite clean_title_filter.
    destruct (last (strip _)) eqn:E; [|exact I]. eapply strip_last, E.
  - eapply Forall_impl; [apply clean_title_kept|].
    intros c Hc. unfold deleted in Hc. cbv beta in Hc.
    repeat split; intros ->; discriminate Hc.
  - reflexivity.
Qed.

(** C10. Title cleaning is idempotent. *)
Theorem clean_title_idempotent (t : str) :
  clean_title (clean_title t) = clean_title t.
Proof.
  rewrite (clean_title_filter (clean_title t)).
  rewrite filter_Forall_id by apply clean_title_kept.
  rewrite clean_title_filter. apply strip_idem.
Qed.

(** ** Field extractors and the record mapper *)

Lemma extract_text_value (soup : tag) (selector : str) :
  extract_text soup selector = inr (text <$> find soup selector None).
Proof. unfold extract_text. destruct (find _ _ _); reflexivity. Qed.

Lemma extract_text_class_value (soup : tag) (selector type : str) :
  extract_text_class soup selector type
  = inr (text <$> find soup selector (Some type)).
Proof. unfold extract_text_class. destruct (find _ _ _); reflexivity. Qed.

Lemma extract_title_value (soup : tag) :
  extract_title soup
  = inr (temp ← find soup (lit "a") (Some (lit "title"));
         s ← find_string temp;
         Some (clean_title s)).
Proof.
  unfold extract_title. destruct (find _ _ _) as [temp|]; [|reflexivity].
  simpl. destruct (find_string temp); reflexivity.
Qed.

Lemma extract_call_number_value (book : tag) :
  extract_call_number book
  = inr ((fun t => strip (text t))
           <$> find book (lit "span") (Some (lit "CallNumber"))).
Proof. unfold extract_call_number. destruct (find _ _ _); reflexivity. Qed.

Lemma extract_link_value (book : tag) :
  extract_link book
  = inr (a ← find book (lit "a") None; attrs a !! lit "href").
Proof. unfold extract_link. destruct (find _ _ _); reflexivity. Qed.

Lemma extract_book_type_value (soup : tag) :
  extract_book_type soup
  = inr ((fun t => replace (lit "Material type:") [] (get_text_strip t))
           <$> find soup (lit "span") (Some (lit "results_material_type"))).
Proof. unfold extract_book_type. destruct (find _ _ _); reflexivity. Qed.

Lemma extract_book_language_value (soup : tag) :
  extract_book_language soup
  = inr (temp ←
           find soup (lit "span") (Some (lit "results_summary languages"));
         ab ← partition (lit ":") (get_text_strip temp);
         Some (strip ab.2)).
Proof.
  unfold extract_book_language.
  destruct (find _ _ _) as [temp|]; [|reflexivity].
  simpl. change (lit ":") with [58%N]. unfold split1.
  destruct (partition _ _) as [[a b]|]; reflexivity.
Qed.

Lemma extract_book_form_value (soup : tag) :
  extract_book_form soup
  = inr ((fun temp =>
            match partition (lit ":") (get_text_strip temp) with
            | Some ab => strip ab.2
            | None => strip (get_text_strip temp)
            end)
           <$> find soup (lit "span")
                 (Some (lit "results_contents_literary"))).
Proof.
  unfold extract_book_form.
  destruct (find _ _ _) as [temp|]; [|reflexivity].
  simpl. change (lit ":") with [58%N]. unfold contains, split1.
  destruct (partition _ _) as [[a b]|]; reflexivity.
Qed.

(** What [parse_book] yields: one record, made of what the eight
    extractors return. *)
Lemma parse_book_value (book : tag) :
  exists r,
    parse_book book = inr [r]
    /\ extract_title book = inr (r_title r)
    /\ extract_call_number book = inr (r_call_number r)
    /\ extract_text book (lit "p") = inr (r_author r)
    /\ extract_book_type book = inr (r_booktype r)
    /\ extract_book_form book = inr (r_form r)
    /\ extract_book_language book = inr (r_language r)
    /\ extract_text_class book (lit "span") (lit "publisher_date")
       = inr (r_year r)
    /\ extract_link book = inr (r_link r)
    /\ (find book (lit "p") None = None -> r_author r = None).
Proof.
  unfold parse_book.
  rewrite extract_title_value, extract_call_number_value,
    extract_text_value, extract_book_type_value, extract_book_form_value,
    extract_book_language_value, extract_text_class_value,
    extract_link_value.
  eexists. split; [reflexivity|]. cbn [r_title r_call_number r_author
    r_booktype r_form r_language r_year r_link].
  repeat (split; [reflexivity|]).
  intros ->. reflexivity.
Qed.


(** ** The count in the heading *)

Section Counting.

Variable todecimal : N -> option N.

(** Two facts of the interpreter's table: a decimal digit is no
    whitespace and no sign. *)
Hypothesis decimal_not_space :
  forall c, isdecimal todecimal c = true -> isspace c = false.
Hypothesis decimal_not_sign :
  forall c, isdecimal todecimal c = true -> c <> 43%N /\ c <> 45%N.

Abbreviation digit := (fun c => isdecimal todecimal c = true).













End Counting.

(** ** The page count *)

(** Rounding a multiple of [1/100] to a grid of step [1/k] with
    [64 <= k] never crosses an integer: the ceiling of the rounded
    quotient is the ceiling of the exact one. *)
Lemma round_half_even_ceiling (n k p : Z) :
  0 <= n -> 64 <= k -> 100 * (p - 1) < n <= 100 * p ->
  - ((- round_half_even (n * k) 100) / k) = p.
Proof.
  intros Hn Hk Hp. unfold round_half_even.
  pose proof (Z.div_mod (n * k) 100 ltac:(lia)) as E.
  pose proof (Z.mod_pos_bound (n * k) 100 ltac:(lia)) as Hr.
  set (q := n * k / 100) in *. set (r := (n * k) mod 100) in *.
  assert (Hm : exists m,
             (if 2 * r <? 100 then q
              else if 100 <? 2 * r then q + 1
              else if Z.even q then q else q + 1) = m
             /\ (p - 1) * k < m <= p * k).
  { destruct (Z.ltb_spec (2 * r) 100) as [H1|H1].
    - exists q. split; [reflexivity|]. nia.
    - destruct (Z.ltb_spec 100 (2 * r)) as [H2|H2].
      + exists (q + 1). split; [reflexivity|]. nia.
      + destruct (Z.even q); eexists; (split; [reflexivity|]); nia. }
  destruct Hm as [m [-> Hm]].
  rewrite <- (Z.div_unique (- m) k (- p) (p * k - m)) by lia. lia.
Qed.

Lemma quotient_log2_bounds (n : Z) :
  1 <= n < 100 * 2 ^ 47 -> -7 <= quotient_log2 n 100 <= 46.
Proof.
  intros Hn. unfold quotient_log2.
  change (Z.log2 100) with 6.
  assert (H0 : 0 <= Z.log2 n) by apply Z.log2_nonneg.
  assert (H1 : Z.log2 n < 54).
  { apply Z.log2_lt_pow2; [lia|]. change (2 ^ 54) with 18014398509481984.
    change (2 ^ 47) with 140737488355328 in Hn. lia. }
  destruct (0 <=? Z.log2 n - 6) eqn:Hd.
  - destruct (Z.leb_spec (100 * 2 ^ (Z.log2 n - 6)) n) as [Hle|Hgt]; [|lia].
    split; [lia|].
    assert (2 ^ (Z.log2 n - 6) < 2 ^ 47) by lia.
    apply Z.pow_lt_mono_r_iff in H; lia.
  - destruct (100 <=? n * 2 ^ (- (Z.log2 n - 6))); lia.
Qed.

Lemma num_of_pages_small (n p : Z) :
  1 <= n < 100 * 2 ^ 47 -> 100 * (p - 1) < n <= 100 * p ->
  num_of_pages (Some n) = inr (Some p).
Proof.
  intros Hn Hp. pose proof (quotient_log2_bounds n Hn) as Hl.
  unfold num_of_pages, int_true_divide.
  change (100 =? 0) with false. cbv iota.
  destruct (Z.eqb_spec n 0) as [->|_]; [lia|].
  rewrite (Z.abs_eq n) by lia. change (Z.abs 100) with 100.
  set (l := quotient_log2 n 100) in *.
  rewrite (Z.max_l (l - 52) (-1074)) by lia.
  destruct (Z.leb_spec 0 (l - 52)) as [?|_]; [lia|].
  rewrite (Z.pow_neg_r 2 (l - 52)) by lia.
  rewrite Z.mul_0_r. change (2 ^ 1024 <=? 0) with false. cbv iota.
  simpl. unfold ceil. cbn [exponent mantissa].
  destruct (Z.leb_spec 0 (l - 52)) as [?|_]; [lia|].
  rewrite (Z.sgn_pos n) by lia. change (Z.sgn 100) with 1.
  rewrite !Z.mul_1_l.
  rewrite (round_half_even_ceiling n (2 ^ (- (l - 52))) p); [reflexivity|lia| |lia].
  change 64 with (2 ^ 6). apply Z.pow_le_mono_r; lia.
Qed.

(** C3, as the code has it. Without a count there is no page count
    ([None], not zero); counts 0, 100, 101 and 250 give 0, 1, 2 and 3
    pages; and for every count [n] from 0 to 14073748835532800, which is
    [100 * 2 ^ 47], the page count is the ceiling of [n / 100]: the least
    [p] with [n <= 100 * p]. *)
Theorem num_of_pages_ceiling :
  num_of_pages None = inr None
  /\ num_of_pages (Some 0) = inr (Some 0)
  /\ num_of_pages (Some 100) = inr (Some 1)
  /\ num_of_pages (Some 101) = inr (Some 2)
  /\ num_of_pages (Some 250) = inr (Some 3)
  /\ forall n, 0 <= n <= 14073748835532800 ->
       exists p, num_of_pages (Some n) = inr (Some p)
                 /\ 100 * (p - 1) < n <= 100 * p.
Proof.
  repeat (split; [reflexivity|]).
  intros n Hn. exists ((n + 99) / 100).
  assert (Hp : 100 * ((n + 99) / 100 - 1) < n <= 100 * ((n + 99) / 100)).
  { pose proof (Z.div_mod (n + 99) 100 ltac:(lia)).
    pose proof (Z.mod_pos_bound (n + 99) 100 ltac:(lia)). lia. }
  split; [|exact Hp].
  destruct (Z.eq_dec n 0) as [->|H0]; [reflexivity|].
  destruct (Z.eq_dec n 14073748835532800) as [->|H1]; [reflexivity|].
  apply num_of_pages_small; [|exact Hp].
  change (2 ^ 47) with 140737488355328. lia.
Qed.

(** C3 fails as stated: without a count the page count is [None] and not
    0, and the count 14073748835532801 has 140737488355328 pages where the
    ceiling of the hundredth is 140737488355329: the quotient is rounded
    to a binary64 number before the ceiling is taken. *)
Lemma num_of_pages_not_ceiling :
  num_of_pages None <> inr (Some 0)
  /\ num_of_pages (Some 14073748835532801) = inr (Some 140737488355328)
  /\ ~ (14073748835532801 <= 100 * 140737488355328).
Proof.
  split; [discriminate|]. split; [vm_compute; reflexivity | lia].
Qed.

(** ** The store of records *)

Lemma insert_or_ignore_no_constraint (t : table) (r : row) :
  unique t = [] -> insert_or_ignore t r = Table [] (rows t ++ [r]).
Proof.
  intros H. unfold insert_or_ignore, conflicts. rewrite H. reflexivity.
Qed.

Lemma foldl_insert_no_constraint (rs : list row) (t : table) :
  unique t = [] ->
  foldl insert_or_ignore t rs = Table [] (rows t ++ rs).
Proof.
  revert t. induction rs as [|r rs IH]; intros t H; simpl.
  - rewrite app_nil_r. destruct t; simpl in *; congruence.
  - rewrite insert_or_ignore_no_constraint by assumption.
    rewrite IH by reflexivity. simpl. rewrite <- app_assoc. reflexivity.
Qed.

(** A database that the scraper created keeps every row it is given: the
    table it creates has no constraint for OR IGNORE to act on. *)
Lemma save_to_database_appends (database_path : str) (rs : list row)
    (w : world) :
  unique (create_table_if_not_exists (databases w !! database_path)) = [] ->
  save_to_database database_path (inr rs) w
  = (inr tt,
     World (files w)
       (<[database_path :=
            Table []
              (rows (create_table_if_not_exists
                       (databases w !! database_path)) ++ rs)]>
          (databases w))
       (get_calls w)).
Proof.
  intros H. unfold save_to_database.
  rewrite foldl_insert_no_constraint by assumption. reflexivity.
Qed.

(** C1, on the code. Storing the same record twice in a new store leaves
    two rows with that identity: the second insert is not dropped. *)
Theorem save_to_database_twice (r : row) (database_path : str) :
  exists w1 w2,
    save_to_database database_path (inr [r]) fresh = (inr tt, w1)
    /\ save_to_database database_path (inr [r]) w1 = (inr tt, w2)
    /\ rows <$> databases w2 !! database_path = Some [r; r].
Proof.
  eexists. eexists. split; [reflexivity|].
  rewrite save_to_database_appends.
  - split; [reflexivity|]. cbn [databases fresh].
    rewrite !lookup_insert_eq. reflexivity.
  - cbn [databases fresh]. rewrite lookup_insert_eq. reflexivity.
Qed.

(** What OR IGNORE is for: in a table declared with a UNIQUE constraint
    on (title, author, year) the second insert of a record is dropped. *)
Lemma insert_or_ignore_unique_drops (r : row) (a b c : str) :
  r_title r = Some a -> r_author r = Some b -> r_year r = Some c ->
  foldl insert_or_ignore (Table [[title; author; year]] []) [r; r]
  = Table [[title; author; year]] [r].
Proof.
  intros Ha Hb Hc. destruct r as [t cn au bt fo la ye li].
  simpl in Ha, Hb, Hc. subst t au ye.
  unfold foldl, insert_or_ignore, conflicts, collide.
  cbn [unique rows existsb forallb field app r_title r_author r_year orb].
  unfold str_eqb. rewrite !bool_decide_eq_true_2 by reflexivity.
  reflexivity.
Qed.

(** ** The progress ledger *)

Lemma filter_list_difference (l k : list Z) :
  List.filter (fun code => bool_decide (code ∉ k)) l = list_difference l k.
Proof.
  induction l as [|x l IH]; [reflexivity|]. simpl.
  destruct (decide_rel elem_of x k) as [Hin|Hin].
  - rewrite bool_decide_eq_false_2 by tauto. exact IH.
  - rewrite bool_decide_eq_true_2 by assumption. rewrite IH. reflexivity.
Qed.

Lemma list_difference_sublist (l k : list Z) :
  list_difference l k `sublist_of` l.
Proof.
  induction l as [|x l IH]; simpl; [constructor|].
  destruct (decide_rel elem_of x k); [apply sublist_cons | apply sublist_skip];
    exact IH.
Qed.

(** C4. The remaining codes are the universe without the codes of the
    ledger, in the order of the universe, and a missing ledger counts as
    empty; reading them changes nothing. *)
Theorem progress_update_codes_remaining (path language : str) (w : world)
    (universe : list Z) :
  files w !! universe_file path = Some universe ->
  exists remaining,
    progress_update_codes path language w = (inr remaining, w)
    /\ remaining = list_difference universe (ledger w path language)
    /\ remaining `sublist_of` universe
    /\ forall code,
         code ∈ remaining
         <-> code ∈ universe /\ code ∉ ledger w path language.
Proof.
  intros Hu. eexists. split; [|split; [reflexivity|split]].
  - unfold progress_update_codes, read_csv, try_except_M.
    fold (universe_file path). fold (ledger_file path language).
    unfold mbind, M_bind. rewrite Hu. unfold ledger.
    destruct (files w !! ledger_file path language) as [l|];
      simpl; rewrite <- filter_list_difference; reflexivity.
  - apply list_difference_sublist.
  - intros code. apply list_elem_of_difference.
Qed.

(** C9. Marking a unit complete writes the ledger back with the code
    appended: the ledger afterwards is the prior ledger, empty when the
    file was missing, followed by the code; no other file, no database
    and no request is touched. *)
Theorem save_code_scraped_appends (language path : str) (code : Z)
    (w : world) :
  exists w',
    save_code_scraped language path code w = (inr tt, w')
    /\ files w' !! ledger_file path language
       = Some (ledger w path language ++ [code])
    /\ ledger w' path language = ledger w path language ++ [code]
    /\ (forall f, f <> ledger_file path language ->
                  files w' !! f = files w !! f)
    /\ databases w' = databases w
    /\ get_calls w' = get_calls w.
Proof.
  unfold save_code_scraped, read_csv, try_except_M, to_csv, ledger.
  fold (ledger_file path language).
  unfold mbind, M_bind.
  destruct (files w !! ledger_file path language) as [l|]; simpl;
    eexists; (split; [reflexivity|]); cbn [files databases get_calls];
    rewrite lookup_insert_eq; repeat split; try reflexivity;
    intros f Hf; rewrite lookup_insert_ne by congruence; reflexivity.
Qed.

(** ** The drivers *)

Lemma language_code_supported (language : str) :
  is_Some (language_code language) <-> language ∈ supported.
Proof.
  unfold language_code, supported, str_eqb.
  generalize (lit "Hindi") (lit "Bengali") (lit "Tamil") (lit "Marathi")
    (lit "Urdu") (lit "Kannada") (lit "English").
  intros l1 l2 l3 l4 l5 l6 l7.
  rewrite !elem_of_cons, elem_of_nil.
  repeat case_bool_decide; (split; [intros [? E]|intros Hin]);
    eauto; try discriminate E; tauto.
Qed.

Lemma build_url_language_code (language : str) (num DDC : Z) :
  build_url language num DDC
  = (fun lan =>
       lit "https://nationallibraryopac.nvli.in/cgi-bin/koha/opac-search.pl?idx=callnum&q="
       ++ format_int DDC
       ++ lit "&limit=mc-itype%2Cphr%3ABKS&limit=ln%2Crtrn%3A" ++ lan
       ++ lit "&limit=fic%3A0&offset=" ++ format_int num
       ++ lit "&sort_by=call_number_dsc&count=100")
      <$> language_code language.
Proof.
  unfold build_url, language_code.
  repeat (destruct (str_eqb language _); [reflexivity|]). reflexivity.
Qed.

(** Outside the closed table the query build returns [None]. *)
Lemma build_url_unsupported (language : str) (num DDC : Z) :
  build_url language num DDC = None <-> language ∉ supported.
Proof.
  rewrite build_url_language_code, <- language_code_supported.
  destruct (language_code language); simpl; split; try discriminate.
  - intros H. exfalso. apply H. eauto.
  - intros _ [? ?]. discriminate.
  - reflexivity.
Qed.





Section Driving.

Variable todecimal : N -> option N.
Variable remote : nat -> str -> res tag.



(** Without a locator the counting request is still issued, with
    [None] for a URL, and the driver stops on its [TypeError]. *)
Lemma parse_code_no_locator (language path : str) (code : Z) (w : world) :
  build_url language 0 code = None ->
  parse_code todecimal remote language path code w
  = (inl TypeError,
     World (files w) (databases w) (get_calls w ++ [None])).
Proof. intros H. unfold parse_code. rewrite H. reflexivity. Qed.

(** A heading without digits: the unit ends after the counting request,
    and no page is fetched. *)
Lemma parse_code_no_results (language path : str) (code : Z) (w : world)
    (url0 : str) (doc h1 : tag) :
  build_url language 0 code = Some url0 ->
  remote (length (get_calls w)) url0 = inr doc ->
  find doc (lit "h1") None = Some h1 ->
  extract_number todecimal (strip (text h1)) = inr None ->
  parse_code todecimal remote language path code w
  = (inr tt, World (files w) (databases w) (get_calls w ++ [Some url0])).
Proof.
  intros Hurl Hdoc Hh1 Hnum. unfold parse_code. rewrite Hurl.
  unfold num_of_results, httpx_get, lift, mbind, M_bind.
  rewrite Hdoc, Hh1. cbn [attr mret res_ret]. rewrite Hnum. reflexivity.
Qed.



(** C2, on the code. The facet name [French] is outside the table and the
    query build returns [None]; the driver passes that [None] on to
    [httpx.get], which refuses it with [TypeError]; nothing catches the
    exception, so it ends the unit and with it the campaign: the unit is
    not recorded and no later unit runs. *)
Theorem parse_code_unsupported_aborts (path : str) (code : Z)
    (codes : list Z) (w : world) :
  build_url (lit "French") 0 code = None
  /\ parse_code todecimal remote (lit "French") path code w
     = (inl TypeError,
        World (files w) (databases w) (get_calls w ++ [None]))
  /\ parse_language todecimal remote (lit "French") path (code :: codes) w
     = (inl TypeError,
        World (files w) (databases w) (get_calls w ++ [None])).
Proof.
  assert (H : build_url (lit "French") 0 code = None).
  { apply build_url_unsupported. unfold supported.
    rewrite !elem_of_cons, elem_of_nil. intros Hin.
    repeat destruct Hin as [Hin|Hin]; try discriminate Hin. exact Hin. }
  split; [exact H|]. split.
  - apply parse_code_no_locator, H.
  - unfold parse_language. simpl. unfold mbind, M_bind.
    rewrite parse_code_no_locator by exact H. reflexivity.
Qed.

End Driving.

(** ** Instances *)





(** With the ledger 600, 601 and the universe 600..603 the remaining
    codes are 602 and 603, in that order. *)
Lemma progress_update_codes_remaining_witness :
  progress_update_codes (lit "../Data/") (lit "Hindi") resumed
  = (inr [602; 603], resumed).
Proof.
  destruct (progress_update_codes_remaining (lit "../Data/") (lit "Hindi")
              resumed [600; 601; 602; 603])
    as [remaining [E [-> _]]].
  - vm_compute. reflexivity.
  - rewrite E. vm_compute. reflexivity.
Defined.


(** * Further properties *)

(** ** Frames *)

Lemma keeps_ret {A} (R : world -> world -> Prop) `{!Reflexive R} (x : A) :
  keeps R (mret x).
Proof. intros w. simpl. reflexivity. Qed.

Lemma keeps_lift {A} (R : world -> world -> Prop) `{!Reflexive R}
    (r : res A) :
  keeps R (lift r).
Proof. intros w. simpl. reflexivity. Qed.

Lemma keeps_bind {A B} (R : world -> world -> Prop) `{!Transitive R}
    (m : M A) (k : A -> M B) :
  keeps R m -> (forall x, keeps R (k x)) -> keeps R (m ≫= k).
Proof.
  intros Hm Hk w. unfold mbind, M_bind.
  specialize (Hm w). destruct (m w) as [[e|x] w1]; simpl in *.
  - exact Hm.
  - transitivity w1; [exact Hm | apply Hk].
Qed.

Lemma keeps_try {A} (R : world -> world -> Prop) `{!Transitive R}
    (body handler : M A) (excs : list exn) :
  keeps R body -> keeps R handler -> keeps R (try_except_M body excs handler).
Proof.
  intros Hb Hh w. unfold try_except_M.
  specialize (Hb w). destruct (body w) as [[e|x] w1]; simpl in *.
  - destruct (bool_decide (e ∈ excs)); simpl; [|exact Hb].
    transitivity w1; [exact Hb | apply Hh].
  - exact Hb.
Qed.

Lemma keeps_for_each {A} (R : world -> world -> Prop)
    `{!Reflexive R} `{!Transitive R} (xs : list A) (body : A -> M unit) :
  (forall x, keeps R (body x)) -> keeps R (for_each xs body).
Proof.
  intros Hbody. induction xs as [|x xs IH]; simpl.
  - apply keeps_ret; assumption.
  - apply keeps_bind; [assumption | apply Hbody | intros _; exact IH].
Qed.

#[local] Instance only_database_refl (p : str) : Reflexive (only_database p).
Proof. intros w. split; [reflexivity | intros; reflexivity]. Qed.

#[local] Instance only_database_trans (p : str) :
  Transitive (only_database p).
Proof.
  intros w1 w2 w3 [F1 D1] [F2 D2]. split; [congruence|].
  intros q Hq. rewrite D2, D1 by assumption. reflexivity.
Qed.

Lemma save_to_database_only (database_path : str)
    (page_results : res (list row)) :
  keeps (only_database database_path)
    (save_to_database database_path page_results).
Proof.
  intros w. unfold save_to_database.
  destruct page_results; cbn [snd]; (split; [reflexivity|]);
    intros p Hp; cbn [databases]; rewrite lookup_insert_ne by congruence;
    reflexivity.
Qed.

(** ** The store *)




Lemma database_file_inj (path language language' : str) :
  database_file path language = database_file path language' ->
  language = language'.
Proof.
  unfold database_file. intros H.
  apply app_inv_head in H. apply app_inv_head in H.
  apply app_inv_tail in H. exact H.
Qed.



Section Pages.

Variable todecimal : N -> option N.
Variable remote : nat -> str -> res tag.

Lemma httpx_get_only (p : str) (url : option str) :
  keeps (only_database p) (httpx_get remote url).
Proof.
  intros w. unfold httpx_get.
  destruct url as [u|]; [destruct (remote _ u)|]; simpl;
    (split; [reflexivity | intros; reflexivity]).
Qed.

Lemma parse_page_only (url : option str) (path : str) :
  keeps (only_database path) (parse_page remote url path).
Proof.
  unfold parse_page.
  apply keeps_bind; [typeclasses eauto | apply httpx_get_only |].
  intros soup. apply keeps_try; [typeclasses eauto | |].
  - apply keeps_bind; [typeclasses eauto | |].
    + apply keeps_lift. typeclasses eauto.
    + intros books. destruct (length books =? 0)%nat.
      * apply keeps_ret. typeclasses eauto.
      * apply keeps_for_each; try typeclasses eauto.
        intros book. apply save_to_database_only.
  - apply keeps_ret. typeclasses eauto.
Qed.

Lemma num_of_results_only (p : str) (url : option str) :
  keeps (only_database p) (num_of_results todecimal remote url).
Proof.
  unfold num_of_results.
  apply keeps_bind; [typeclasses eauto | apply httpx_get_only |].
  intros soup. apply keeps_bind; [typeclasses eauto | |].
  - apply keeps_lift. typeclasses eauto.
  - intros h1. apply keeps_lift. typeclasses eauto.
Qed.

Lemma parse_code_only (language path : str) (code : Z) :
  keeps (only_database (database_file path language))
    (parse_code todecimal remote language path code).
Proof.
  unfold parse_code. fold (database_file path language).
  apply keeps_bind; [typeclasses eauto | apply num_of_results_only |].
  intros num_res. apply keeps_bind; [typeclasses eauto | |].
  - apply keeps_lift. typeclasses eauto.
  - intros num_pages. destruct num_res as [n|].
    + destruct num_pages as [p|].
      * apply keeps_for_each; try typeclasses eauto.
        intros i. apply parse_page_only.
      * apply keeps_lift. typeclasses eauto.
    + apply keeps_ret. typeclasses eauto.
Qed.




(** X5. One store per facet: scraping a unit of one language, whatever
    its outcome, leaves the database of every other language and every
    CSV file as they were. *)
Theorem parse_code_other_facets (language language' path : str) (code : Z)
    (w : world) :
  language' <> language ->
  databases (parse_code todecimal remote language path code w).2
    !! database_file path language'
  = databases w !! database_file path language'
  /\ files (parse_code todecimal remote language path code w).2 = files w.
Proof.
  intros Hne. destruct (parse_code_only language path code w) as [F D].
  split; [|exact F]. apply D. intros H.
  apply database_file_inj in H. contradiction.
Qed.




End Pages.

(** ** The ledger and the campaign *)

Lemma universe_ledger_distinct (path language : str) :
  universe_file path <> ledger_file path language.
Proof.
  unfold universe_file, ledger_file. intros H.
  apply app_inv_head in H. vm_compute in H. discriminate H.
Qed.

Lemma ledger_file_inj (path language language' : str) :
  ledger_file path language = ledger_file path language' ->
  language = language'.
Proof.
  unfold ledger_file. intros H.
  apply app_inv_head in H. apply app_inv_head in H.
  apply app_inv_tail in H. exact H.
Qed.

Lemma save_code_scraped_value (language path : str) (code : Z) (w : world) :
  save_code_scraped language path code w
  = (inr tt,
     World (<[ledger_file path language := ledger w path language ++ [code]]>
              (files w))
       (databases w) (get_calls w)).
Proof.
  unfold save_code_scraped, read_csv, try_except_M, to_csv, ledger.
  fold (ledger_file path language). unfold mbind, M_bind.
  destruct (files w !! ledger_file path language); reflexivity.
Qed.

Lemma progress_update_codes_value (path language : str) (w : world)
    (universe : list Z) :
  files w !! universe_file path = Some universe ->
  progress_update_codes path language w
  = (inr (list_difference universe (ledger w path language)), w).
Proof.
  intros Hu. unfold progress_update_codes, read_csv, try_except_M.
  fold (universe_file path). fold (ledger_file path language).
  unfold mbind, M_bind. rewrite Hu. unfold ledger.
  destruct (files w !! ledger_file path language) as [l|];
    simpl; rewrite <- filter_list_difference; reflexivity.
Qed.

Lemma list_difference_snoc (l k : list Z) (c : Z) :
  list_difference l (k ++ [c])
  = List.filter (fun x => negb (x =? c)) (list_difference l k).
Proof.
  induction l as [|x l IH]; [reflexivity|]. simpl.
  destruct (decide_rel elem_of x (k ++ [c])) as [Hin|Hin];
    destruct (decide_rel elem_of x k) as [Hk|Hk]; simpl.
  - exact IH.
  - apply elem_of_app in Hin as [?|Hc]; [contradiction|].
    apply list_elem_of_singleton in Hc as ->.
    rewrite Z.eqb_refl. exact IH.
  - exfalso. apply Hin, elem_of_app. left. exact Hk.
  - destruct (Z.eqb_spec x c) as [->|_]; simpl.
    + exfalso. apply Hin, elem_of_app. right. constructor.
    + rewrite IH. reflexivity.
Qed.

Lemma list_difference_covered (l k : list Z) :
  Forall (fun c => c ∈ k) l -> list_difference l k = [].
Proof.
  induction 1 as [|x l Hx _ IH]; [reflexivity|]. simpl.
  destruct (decide_rel elem_of x k); [exact IH | contradiction].
Qed.

(** X6. Marking a unit complete and asking for the remaining work
    compose: afterwards the remaining codes of that language are the ones
    that remained before without the marked code, and the remaining codes
    of every other language are as before. *)
Theorem save_code_scraped_then_remaining (language language' path : str)
    (code : Z) (w : world) (universe : list Z) :
  files w !! universe_file path = Some universe ->
  exists w1,
    save_code_scraped language path code w = (inr tt, w1)
    /\ progress_update_codes path language w1
       = (inr (List.filter (fun c => negb (c =? code))
                 (list_difference universe (ledger w path language))),
          w1)
    /\ (language' <> language ->
        progress_update_codes path language' w1
        = (inr (list_difference universe (ledger w path language')), w1)).
Proof.
  intros Hu. rewrite save_code_scraped_value. eexists.
  split; [reflexivity|].
  set (w1 := World _ _ _).
  assert (Hu1 : files w1 !! universe_file path = Some universe).
  { unfold w1. cbn [files]. rewrite lookup_insert_ne; [exact Hu|].
    intros H. symmetry in H. exact (universe_ledger_distinct _ _ H). }
  split.
  - rewrite (progress_update_codes_value _ _ _ _ Hu1).
    unfold ledger at 1, w1. cbn [files]. rewrite lookup_insert_eq.
    simpl. rewrite list_difference_snoc. reflexivity.
  - intros Hne. rewrite (progress_update_codes_value _ _ _ _ Hu1).
    unfold ledger at 1, w1. cbn [files].
    rewrite lookup_insert_ne; [reflexivity|].
    intros H. apply ledger_file_inj in H. congruence.
Qed.

Section Campaign.

Variable todecimal : N -> option N.
Variable remote : nat -> str -> res tag.

Lemma parse_language_cons (language path : str) (c : Z) (cs : list Z)
    (w : world) :
  parse_language todecimal remote language path (c :: cs) w
  = match parse_code todecimal remote language path c w with
    | (inl e, w1) => (inl e, w1)
    | (inr _, w1) =>
        parse_language todecimal remote language path cs
          (World (<[ledger_file path language
                    := ledger w1 path language ++ [c]]> (files w1))
             (databases w1) (get_calls w1))
    end.
Proof.
  unfold parse_language. cbn [for_each]. unfold mbind, M_bind.
  destruct (parse_code todecimal remote language path c w) as [[e|[]] w1];
    [reflexivity|].
  rewrite save_code_scraped_value. reflexivity.
Qed.

(** What a run over a list of codes leaves in the ledger, whatever its
    outcome. *)
Lemma parse_language_ledger (language path : str) (codes : list Z) :
  forall w,
    exists done,
      done `prefix_of` codes
      /\ ledger (parse_language todecimal remote language path codes w).2
           path language
         = ledger w path language ++ done
      /\ (forall f, f <> ledger_file path language ->
            files (parse_language todecimal remote language path codes w).2
              !! f
            = files w !! f)
      /\ match (parse_language todecimal remote language path codes w).1 with
         | inr _ => done = codes
         | inl _ => (length done < length codes)%nat
         end.
Proof.
  induction codes as [|c cs IH]; intros w.
  - exists []. simpl. rewrite app_nil_r.
    split; [apply prefix_nil|]. repeat split; reflexivity.
  - rewrite parse_language_cons.
    pose proof (parse_code_only todecimal remote language path c w)
      as [F1 _].
    destruct (parse_code todecimal remote language path c w)
      as [[e|[]] w1] eqn:E1; cbn [snd] in F1.
    + exists []. cbn [fst snd]. rewrite app_nil_r. unfold ledger.
      rewrite F1. split; [apply prefix_nil|]. split; [reflexivity|].
      split; [intros; reflexivity | simpl; lia].
    + set (w2 := World _ _ _).
      destruct (IH w2) as [done [P [L [O R]]]].
      exists (c :: done). split; [apply prefix_cons; exact P|].
      split; [|split].
      * rewrite L. unfold ledger at 1, w2. cbn [files].
        rewrite lookup_insert_eq. simpl. unfold ledger. rewrite F1.
        rewrite <- app_assoc. reflexivity.
      * intros f Hf. rewrite (O f Hf). unfold w2. cbn [files].
        rewrite lookup_insert_ne by congruence. rewrite F1. reflexivity.
      * destruct (parse_language _ _ _ _ cs w2).1.
        -- simpl. lia.
        -- congruence.
Qed.

(** X7. The ledger records completed units only, in order: after a run
    over a list of codes, whatever its outcome, the ledger is the prior
    ledger followed by a prefix of the list; the prefix is the whole list
    when the run returns and a proper prefix when it is stopped by an
    exception (the unit that failed is not recorded); no other CSV file
    changes. *)
Theorem parse_language_records_completed (language path : str)
    (codes : list Z) (w : world) :
  exists done rest,
    codes = done ++ rest
    /\ ledger (parse_language todecimal remote language path codes w).2
         path language
       = ledger w path language ++ done
    /\ (forall f, f <> ledger_file path language ->
          files (parse_language todecimal remote language path codes w).2
            !! f
          = files w !! f)
    /\ match (parse_language todecimal remote language path codes w).1 with
       | inr _ => rest = []
       | inl _ => rest <> []
       end.
Proof.
  destruct (parse_language_ledger language path codes w)
    as [done [[rest ->] [L [O R]]]].
  exists done, rest. repeat split; try assumption.
  destruct (parse_language _ _ _ _ _ w).1.
  - rewrite length_app in R. destruct rest; [simpl in R; lia | discriminate].
  - apply (f_equal length) in R. rewrite length_app in R.
    destruct rest; [reflexivity | simpl in R; lia].
Qed.

(** X8. Nothing to do: when every code of the universe is in the ledger,
    [scrape_language] returns without a request and leaves the world as
    it is. *)
Theorem scrape_language_all_done (language path : str) (w : world)
    (universe : list Z) :
  files w !! universe_file path = Some universe ->
  Forall (fun c => c ∈ ledger w path language) universe ->
  scrape_language todecimal remote language path w = (inr tt, w).
Proof.
  intros Hu Hall. unfold scrape_language. unfold mbind, M_bind.
  rewrite (progress_update_codes_value _ _ _ _ Hu).
  rewrite list_difference_covered by exact Hall. reflexivity.
Qed.

(** X9. Without the file of the universe [scrape_language] stops with
    [FileNotFoundError] before any request, also when the ledger exists:
    only the missing ledger is tolerated. *)
Theorem scrape_language_no_universe (language path : str) (w : world) :
  files w !! universe_file path = None ->
  scrape_language todecimal remote language path w
  = (inl FileNotFoundError, w).
Proof.
  intros Hu. unfold scrape_language, progress_update_codes, read_csv.
  fold (universe_file path). unfold mbind, M_bind. rewrite Hu. reflexivity.
Qed.

(** X10. A campaign that returns is complete: after [scrape_language]
    has returned, no code of the universe remains for that language, and
    running it again returns at once, without a request or a change. *)
Theorem scrape_language_completes (language path : str) (w w' : world) :
  scrape_language todecimal remote language path w = (inr tt, w') ->
  progress_update_codes path language w' = (inr [], w')
  /\ scrape_language todecimal remote language path w' = (inr tt, w').
Proof.
  intros Hrun.
  destruct (files w !! universe_file path) as [universe|] eqn:Hu.
  2: { unfold scrape_language, progress_update_codes, read_csv in Hrun.
       fold (universe_file path) in Hrun. unfold mbind, M_bind in Hrun.
       rewrite Hu in Hrun. discriminate Hrun. }
  assert (H' : files w' !! universe_file path = Some universe
               /\ Forall (fun c => c ∈ ledger w' path language) universe).
  { unfold scrape_language in Hrun. unfold mbind, M_bind in Hrun.
    rewrite (progress_update_codes_value _ _ _ _ Hu) in Hrun.
    destruct (0 <? length _)%nat eqn:El.
    - destruct (parse_language_ledger language path
                  (list_difference universe (ledger w path language)) w)
        as [done [_ [L [O R]]]].
      rewrite Hrun in L, O, R. cbn [fst snd] in L, O, R. subst done.
      split.
      + rewrite O; [exact Hu | apply universe_ledger_distinct].
      + rewrite L. apply Forall_forall. intros c Hc.
        apply elem_of_app.
        destruct (decide (c ∈ ledger w path language)); [left; assumption|].
        right. apply list_elem_of_difference. split; assumption.
    - injection Hrun as <-. split; [exact Hu|].
      apply Nat.ltb_ge in El.
      assert (E : list_difference universe (ledger w path language) = []).
      { destruct (list_difference _ _); [reflexivity | simpl in El; lia]. }
      apply Forall_forall. intros c Hc.
      destruct (decide (c ∈ ledger w path language)) as [?|Hn];
        [assumption|].
      assert (Hd : c ∈ list_difference universe (ledger w path language))
        by (apply list_elem_of_difference; split; assumption).
      rewrite E in Hd. inversion Hd. }
  destruct H' as [Hu' Hall]. split.
  - rewrite (progress_update_codes_value _ _ _ _ Hu').
    rewrite list_difference_covered by exact Hall. reflexivity.
  - unfold scrape_language. unfold mbind, M_bind.
    rewrite (progress_update_codes_value _ _ _ _ Hu').
    rewrite list_difference_covered by exact Hall. reflexivity.
Qed.

(** X11. A unit without results counts as complete: when the heading of
    the counting page holds no digit, the unit makes that one request,
    stores nothing, is recorded in the ledger, and the run goes on with
    the next code. *)
Theorem parse_language_no_results (language path : str) (code : Z)
    (codes : list Z) (w : world) (url0 : str) (doc h1 : tag) :
  build_url language 0 code = Some url0 ->
  remote (length (get_calls w)) url0 = inr doc ->
  find doc (lit "h1") None = Some h1 ->
  extract_number todecimal (strip (text h1)) = inr None ->
  parse_language todecimal remote language path (code :: codes) w
  = parse_language todecimal remote language path codes
      (World (<[ledger_file path language
                := ledger w path language ++ [code]]> (files w))
         (databases w) (get_calls w ++ [Some url0])).
Proof.
  intros Hurl Hdoc Hh1 Hnum. rewrite parse_language_cons.
  rewrite (parse_code_no_results todecimal remote language path code w
             url0 doc h1 Hurl Hdoc Hh1 Hnum).
  reflexivity.
Qed.

(** X12. The counting step has no handler: when the counting page comes
    without a heading, the unit stops with [AttributeError] after that
    one request, and so does the run; nothing is stored and the code is
    not recorded. *)
Theorem parse_language_no_heading (language path : str) (code : Z)
    (codes : list Z) (w : world) (url0 : str) (doc : tag) :
  build_url language 0 code = Some url0 ->
  remote (length (get_calls w)) url0 = inr doc ->
  find doc (lit "h1") None = None ->
  parse_code todecimal remote language path code w
  = (inl AttributeError,
     World (files w) (databases w) (get_calls w ++ [Some url0]))
  /\ parse_language todecimal remote language path (code :: codes) w
     = (inl AttributeError,
        World (files w) (databases w) (get_calls w ++ [Some url0])).
Proof.
  intros Hurl Hdoc Hh1.
  assert (E : parse_code todecimal remote language path code w
              = (inl AttributeError,
                 World (files w) (databases w) (get_calls w ++ [Some url0]))).
  { unfold parse_code. rewrite Hurl.
    unfold num_of_results, httpx_get, lift, mbind, M_bind.
    rewrite Hdoc, Hh1. reflexivity. }
  split; [exact E|]. rewrite parse_language_cons, E. reflexivity.
Qed.

End Campaign.

(** ** More on the count, the locator and the fields *)

Section CountingMore.

Variable todecimal : N -> option N.

Hypothesis decimal_not_space :
  forall c, isdecimal todecimal c = true -> isspace c = false.
Hypothesis decimal_not_sign :
  forall c, isdecimal todecimal c = true -> c <> 43%N /\ c <> 45%N.



End CountingMore.

Lemma round_half_even_lower (num den : Z) :
  num / den <= round_half_even num den.
Proof.
  unfold round_half_even.
  destruct (2 * (num mod den) <? den); [lia|].
  destruct (den <? 2 * (num mod den)); [lia|].
  destruct (Z.even (num / den)); lia.
Qed.

Lemma quotient_log2_huge (n : Z) :
  100 * 2 ^ 1024 <= n ->
  1024 <= quotient_log2 n 100 /\ 100 * 2 ^ quotient_log2 n 100 <= n.
Proof.
  intros Hn. unfold quotient_log2. change (Z.log2 100) with 6.
  assert (Hpos : 0 < 2 ^ 1024) by (apply Z.pow_pos_nonneg; lia).
  assert (H0 : 0 < n) by lia.
  assert (Hlog : 1030 <= Z.log2 n).
  { apply Z.log2_le_pow2; [exact H0|].
    replace (2 ^ 1030) with (64 * 2 ^ 1024); [lia|].
    change 1030 with (6 + 1024). rewrite Z.pow_add_r by lia. reflexivity. }
  destruct (Z.log2_spec n H0) as [Hlo _].
  set (d := Z.log2 n - 6) in *.
  assert (Hd : Z.log2 n = d + 6) by (unfold d; lia).
  rewrite Hd in Hlo. rewrite Z.pow_add_r in Hlo by lia.
  change (2 ^ 6) with 64 in Hlo.
  destruct (Z.leb_spec 0 d) as [_|?]; [|lia].
  destruct (Z.leb_spec (100 * 2 ^ d) n) as [Hle|Hgt].
  - split; [lia | exact Hle].
  - assert (Hlt : 2 ^ 1024 < 2 ^ d) by lia.
    apply Z.pow_lt_mono_r_iff in Hlt; [|lia|lia].
    split; [lia|].
    replace (2 ^ d) with (2 * 2 ^ (d - 1)) in Hlo.
    + lia.
    + rewrite <- Z.pow_succ_r by lia. f_equal. lia.
Qed.

(** X14. A count too large for a float: from [100 * 2 ^ 1024] on, the true
    division of the count by 100 overflows and [num_of_pages] raises
    [OverflowError] instead of returning a page count. *)
Theorem num_of_pages_overflow (n : Z) :
  100 * 2 ^ 1024 <= n ->
  num_of_pages (Some n) = inl OverflowError.
Proof.
  intros Hn. destruct (quotient_log2_huge n Hn) as [Hl Hle].
  assert (Hpos : 0 < 2 ^ 1024) by (apply Z.pow_pos_nonneg; lia).
  unfold num_of_pages, int_true_divide.
  change (100 =? 0) with false. cbv iota.
  destruct (Z.eqb_spec n 0) as [->|_]; [lia|].
  rewrite (Z.abs_eq n) by lia. change (Z.abs 100) with 100.
  set (l := quotient_log2 n 100) in *.
  rewrite (Z.max_l (l - 52) (-1074)) by lia.
  destruct (Z.leb_spec 0 (l - 52)) as [_|?]; [|lia].
  set (e := l - 52) in *.
  assert (He : 0 < 2 ^ e) by (apply Z.pow_pos_nonneg; lia).
  assert (Hsplit : 2 ^ l = 2 ^ 52 * 2 ^ e).
  { replace l with (52 + e) by (unfold e; lia).
    apply Z.pow_add_r; lia. }
  assert (Hq : 2 ^ 52 <= n / (100 * 2 ^ e)).
  { apply Z.div_le_lower_bound; [lia|]. rewrite Hsplit in Hle. lia. }
  pose proof (round_half_even_lower n (100 * 2 ^ e)) as Hm.
  set (m := round_half_even n (100 * 2 ^ e)) in *.
  assert (Hbig : 2 ^ 1024 <= m * 2 ^ e).
  { assert (2 ^ 1024 <= 2 ^ l) by (apply Z.pow_le_mono_r; lia).
    rewrite Hsplit in H. nia. }
  destruct (Z.leb_spec (2 ^ 1024) (m * 2 ^ e)) as [_|?]; [reflexivity | lia].
Qed.

(** *** The locator *)

Lemma lit_inj (s s' : string) : lit s = lit s' -> s = s'.
Proof.
  unfold lit. intros H.
  apply (f_equal (fmap ascii_of_N)) in H.
  rewrite <- !list_fmap_compose in H.
  rewrite !(list_fmap_ext (ascii_of_N ∘ N_of_ascii) id) in H
    by (intros; apply ascii_N_embedding).
  rewrite !list_fmap_id in H.
  rewrite <- (string_of_list_ascii_of_string s),
    <- (string_of_list_ascii_of_string s'), H.
  reflexivity.
Qed.

Lemma to_int_not_nil (z : Z) :
  Z.to_int z <> Decimal.Pos Decimal.Nil /\ Z.to_int z <> Decimal.Neg Decimal.Nil.
Proof.
  split; intros H; pose proof (DecimalZ.of_to z) as E; rewrite H in E;
    simpl in E; subst z; discriminate H.
Qed.

Lemma format_int_inj (z z' : Z) : format_int z = format_int z' -> z = z'.
Proof.
  unfold format_int. intros H. apply lit_inj in H.
  apply (f_equal NilZero.int_of_string) in H.
  destruct (to_int_not_nil z), (to_int_not_nil z').
  rewrite !NilZero.isi in H by assumption.
  injection H as H. apply (f_equal Z.of_int) in H.
  rewrite !DecimalZ.of_to in H. exact H.
Qed.

Lemma lit_cons (c : ascii) (s : string) :
  lit (String c s) = N_of_ascii c :: lit s.
Proof. reflexivity. Qed.

Lemma uint_text_no_amp (d : Decimal.uint) :
  Forall (fun c => c <> 38%N) (lit (NilEmpty.string_of_uint d)).
Proof.
  induction d; simpl NilEmpty.string_of_uint;
    [constructor | rewrite lit_cons; constructor; [discriminate | assumption]..].
Qed.

Lemma format_int_no_amp (z : Z) : Forall (fun c => c <> 38%N) (format_int z).
Proof.
  unfold format_int.
  destruct (Z.to_int z) as [d|d]; simpl NilZero.string_of_int.
  - destruct d; try apply uint_text_no_amp.
    repeat constructor; discriminate.
  - rewrite lit_cons. constructor; [discriminate|].
    destruct d; try apply uint_text_no_amp.
    repeat constructor; discriminate.
Qed.

(** A text free of ['&'] is determined by what it is followed by. *)
Lemma split_at_amp (a a' r r' : str) :
  Forall (fun c => c <> 38%N) a -> Forall (fun c => c <> 38%N) a' ->
  a ++ 38%N :: r = a' ++ 38%N :: r' -> a = a' /\ r = r'.
Proof.
  intros Ha. revert a'. induction Ha as [|x a Hx _ IH]; intros a' Ha' H.
  - destruct Ha' as [|y a' Hy _]; simpl in H.
    + injection H as ->. split; reflexivity.
    + injection H as Hxy _. congruence.
  - destruct Ha' as [|y a' Hy Ha']; simpl in H.
    + injection H as Hxy _. congruence.
    + injection H as -> H. destruct (IH a' Ha' H) as [-> ->].
      split; reflexivity.
Qed.

Lemma language_code_no_amp (language lan : str) :
  language_code language = Some lan -> Forall (fun c => c <> 38%N) lan.
Proof.
  unfold language_code.
  repeat (destruct (str_eqb language _);
          [intros [= <-]; repeat constructor; discriminate|]).
  discriminate.
Qed.

Lemma language_code_inj (language language' lan : str) :
  language_code language = Some lan ->
  language_code language' = Some lan ->
  language = language'.
Proof.
  unfold language_code, str_eqb.
  repeat case_bool_decide; intros Hc Hc'; try discriminate Hc;
    try discriminate Hc'; subst; try reflexivity;
    exfalso; rewrite <- Hc' in Hc; vm_compute in Hc; discriminate Hc.
Qed.

(** X15. Locators do not collide: two query builds that give the same
    locator were made for the same language, the same offset and the
    same code. *)
Theorem build_url_injective (language language' : str)
    (num num' DDC DDC' : Z) (url : str) :
  build_url language num DDC = Some url ->
  build_url language' num' DDC' = Some url ->
  language = language' /\ num = num' /\ DDC = DDC'.
Proof.
  rewrite !build_url_language_code.
  destruct (language_code language) as [lan|] eqn:El; [|discriminate].
  destruct (language_code language') as [lan'|] eqn:El'; [|discriminate].
  cbn [fmap option_fmap option_map]. intros E E'.
  apply (inj Some) in E. apply (inj Some) in E'. subst url.
  rename E' into H.
  apply app_inv_head in H.
  change (lit "&limit=mc-itype%2Cphr%3ABKS&limit=ln%2Crtrn%3A")
    with (38%N :: lit "limit=mc-itype%2Cphr%3ABKS&limit=ln%2Crtrn%3A") in H.
  change (lit "&limit=fic%3A0&offset=")
    with (38%N :: lit "limit=fic%3A0&offset=") in H.
  change (lit "&sort_by=call_number_dsc&count=100")
    with (38%N :: lit "sort_by=call_number_dsc&count=100") in H.
  rewrite <- !app_comm_cons in H.
  apply split_at_amp in H as [HD H]; try apply format_int_no_amp.
  apply app_inv_head in H.
  apply split_at_amp in H as [Hlan H];
    try (eapply language_code_no_amp; eassumption).
  apply app_inv_head in H.
  apply split_at_amp in H as [HN _]; try apply format_int_no_amp.
  subst lan'. split; [|split].
  - symmetry. eapply language_code_inj; eassumption.
  - symmetry. apply format_int_inj. exact HN.
  - symmetry. apply format_int_inj. exact HD.
Qed.

(** *** The fields of a record *)

(** X16. The fields that the mapper trims are trimmed in every record:
    the title, the call number, the literary form and the language, when
    present, neither start nor end with whitespace, and the title holds
    no newline, tab or slash. *)
Theorem parse_book_trimmed_fields (book : tag) :
  exists r,
    parse_book book = inr [r]
    /\ (forall s, r_title r = Some s ->
          trimmed s /\ Forall (fun c => deleted c = false) s)
    /\ (forall s, r_call_number r = Some s -> trimmed s)
    /\ (forall s, r_form r = Some s -> trimmed s)
    /\ (forall s, r_language r = Some s -> trimmed s).
Proof.
  destruct (parse_book_value book)
    as [r [E [Ht [Hc [_ [_ [Hf [Hl _]]]]]]]].
  exists r. split; [exact E|].
  rewrite extract_title_value in Ht. rewrite extract_call_number_value in Hc.
  rewrite extract_book_form_value in Hf.
  rewrite extract_book_language_value in Hl.
  injection Ht as Ht. injection Hc as Hc. injection Hf as Hf.
  injection Hl as Hl. unfold trimmed.
  split; [|split; [|split]]; intros s Hs.
  - rewrite <- Ht in Hs.
    destruct (find book (lit "a") (Some (lit "title"))) as [temp|];
      [|discriminate]. simpl in Hs.
    destruct (find_string temp) as [x|]; [|discriminate].
    injection Hs as <-. split.
    + rewrite clean_title_filter. apply strip_idem.
    + eapply Forall_impl; [apply clean_title_kept|].
      intros c Hk. cbv beta in Hk. apply negb_true_iff in Hk. exact Hk.
  - rewrite <- Hc in Hs.
    destruct (find book (lit "span") (Some (lit "CallNumber")));
      [|discriminate].
    simpl in Hs. injection Hs as <-. apply strip_idem.
  - rewrite <- Hf in Hs.
    destruct (find book (lit "span")
                (Some (lit "results_contents_literary"))) as [temp|];
      [|discriminate].
    simpl in Hs. injection Hs as <-.
    destruct (partition _ _); apply strip_idem.
  - rewrite <- Hl in Hs.
    destruct (find book (lit "span")
                (Some (lit "results_summary languages"))) as [temp|];
      [|discriminate]. simpl in Hs.
    destruct (partition _ _); [|discriminate].
    injection Hs as <-. apply strip_idem.
Qed.

(** X17. A label without colon: when the text of the language element
    holds no colon the language of the record is absent, while the
    literary form falls back to the whole trimmed text of its element;
    with a colon both are the trimmed text after the first colon. *)
Theorem language_and_form_colon (soup lang_el form_el : tag) :
  find soup (lit "span") (Some (lit "results_summary languages"))
  = Some lang_el ->
  find soup (lit "span") (Some (lit "results_contents_literary"))
  = Some form_el ->
  extract_book_language soup
  = inr match partition (lit ":") (get_text_strip lang_el) with
        | Some (_, after) => Some (strip after)
        | None => None
        end
  /\ extract_book_form soup
     = inr (Some match partition (lit ":") (get_text_strip form_el) with
                 | Some (_, after) => strip after
                 | None => strip (get_text_strip form_el)
                 end).
Proof.
  intros Hl Hf.
  rewrite extract_book_language_value, extract_book_form_value, Hl, Hf.
  simpl. split.
  - destruct (partition _ (get_text_strip lang_el)) as [[a b]|]; reflexivity.
  - destruct (partition _ (get_text_strip form_el)) as [[a b]|]; reflexivity.
Qed.

(** ** Instances of the further properties *)


Lemma parse_code_other_facets_witness :
  databases
    (parse_code ascii_todecimal catalogue (lit "Hindi") (lit "../Data/") 600
       fresh).2
    !! database_file (lit "../Data/") (lit "Tamil")
  = None.
Proof.
  destruct (parse_code_other_facets ascii_todecimal catalogue (lit "Hindi")
              (lit "Tamil") (lit "../Data/") 600 fresh)
    as [D _].
  - intros H. vm_compute in H. discriminate H.
  - rewrite D. reflexivity.
Defined.

Lemma save_code_scraped_then_remaining_witness :
  (progress_update_codes (lit "../Data/") (lit "Hindi")
     (save_code_scraped (lit "Hindi") (lit "../Data/") 602 resumed).2).1
  = inr [603].
Proof.
  destruct (save_code_scraped_then_remaining (lit "Hindi") (lit "Tamil")
              (lit "../Data/") 602 resumed [600; 601; 602; 603])
    as [w1 [E [P _]]].
  - vm_compute. reflexivity.
  - rewrite E. cbn [snd]. rewrite P. vm_compute. reflexivity.
Defined.

Lemma scrape_language_all_done_witness :
  scrape_language ascii_todecimal catalogue (lit "Hindi") (lit "../Data/")
    finished
  = (inr tt, finished).
Proof.
  apply (scrape_language_all_done ascii_todecimal catalogue (lit "Hindi")
           (lit "../Data/") finished [600; 601]).
  - vm_compute. reflexivity.
  - repeat apply Forall_cons; try apply Forall_nil;
      vm_compute; repeat constructor.
Defined.

Lemma scrape_language_no_universe_witness :
  scrape_language ascii_todecimal catalogue (lit "Hindi") (lit "../Data/")
    fresh
  = (inl FileNotFoundError, fresh).
Proof.
  apply (scrape_language_no_universe ascii_todecimal catalogue
           (lit "Hindi") (lit "../Data/") fresh).
  reflexivity.
Defined.

Lemma scrape_language_completes_witness :
  (progress_update_codes (lit "../Data/") (lit "Hindi")
     (scrape_language ascii_todecimal catalogue (lit "Hindi")
        (lit "../Data/") resumed).2).1
  = inr [].
Proof.
  destruct (scrape_language_completes ascii_todecimal catalogue
              (lit "Hindi") (lit "../Data/") resumed
              (scrape_language ascii_todecimal catalogue (lit "Hindi")
                 (lit "../Data/") resumed).2)
    as [P _].
  - vm_compute. reflexivity.
  - rewrite P. reflexivity.
Defined.

Lemma parse_language_no_results_witness :
  ledger
    (parse_language ascii_todecimal empty_catalogue (lit "Hindi")
       (lit "../Data/") [600; 601] fresh).2
    (lit "../Data/") (lit "Hindi")
  = [600; 601].
Proof.
  rewrite (parse_language_no_results ascii_todecimal empty_catalogue
             (lit "Hindi") (lit "../Data/") 600 [601] fresh
             (default [] (build_url (lit "Hindi") 0 600))
             no_results_page
             (Tag (lit "h1") ∅
                [CStr NavigableString (lit " No results found! ")])).
  - vm_compute. reflexivity.
  - vm_compute. reflexivity.
  - reflexivity.
  - vm_compute. reflexivity.
  - vm_compute. reflexivity.
Defined.

Lemma parse_language_no_heading_witness :
  (parse_language ascii_todecimal bare_catalogue (lit "Hindi")
     (lit "../Data/") [600; 601] fresh).1
  = inl AttributeError.
Proof.
  destruct (parse_language_no_heading ascii_todecimal bare_catalogue
              (lit "Hindi") (lit "../Data/") 600 [601] fresh
              (default [] (build_url (lit "Hindi") 0 600)) bare_page)
    as [_ E].
  - vm_compute. reflexivity.
  - reflexivity.
  - vm_compute. reflexivity.
  - rewrite E. reflexivity.
Defined.


Lemma num_of_pages_overflow_witness :
  num_of_pages (Some (100 * 2 ^ 1024)) = inl OverflowError.
Proof. apply num_of_pages_overflow. apply Z.le_refl. Defined.

Lemma build_url_injective_witness :
  lit "Hindi" = lit "Hindi" /\ 100 = 100 /\ 600 = 600.
Proof.
  apply (build_url_injective (lit "Hindi") (lit "Hindi") 100 100 600 600
           (default [] (build_url (lit "Hindi") 100 600)));
    vm_compute; reflexivity.
Defined.

Lemma language_and_form_colon_witness :
  extract_book_language row_without_author = inr (Some (lit "Hindi"))
  /\ extract_book_form row_without_author = inr (Some (lit "Not fiction")).
Proof.
  destruct (language_and_form_colon row_without_author
              (default row_without_author
                 (find row_without_author (lit "span")
                    (Some (lit "results_summary languages"))))
              (default row_without_author
                 (find row_without_author (lit "span")
                    (Some (lit "results_contents_literary")))))
    as [L F].
  - vm_compute. reflexivity.
  - vm_compute. reflexivity.
  - rewrite L, F. vm_compute. split; reflexivity.
Defined.

